(** * make_image.py: building an ARM64 Linux Image from a flat binary

    A shallow embedding of [src/make_image.py].  The script reads a flat
    kernel binary, packs the 64-byte ARM64 Image header with
    [struct.pack('<IIQQQQQQI4x', ...)], writes header and payload to the
    output path and prints a summary.

    Python integers are [Z]; byte strings are [list byte]; the file
    system, the standard output and the log of file-system calls are
    threaded through a small state-and-exception monad. *)

From stdpp Require Import gmap strings list fin_maps.
From Stdlib Require Import ZArith Lia Strings.Byte Strings.Ascii.
From Stdlib Require Import DecimalString HexadecimalString.

Local Open Scope Z_scope.

(** ** Byte strings *)

Abbreviation bytes := (list byte).

(** The largest length a CPython [bytes] object can have
    ([PY_SSIZE_T_MAX] on a 64-bit build). *)
Definition PY_SSIZE_T_MAX : Z := 2 ^ 63 - 1.

(** [len(b)] as a Python integer. *)
Definition len (b : bytes) : Z := Z.of_nat (length b).

(** A byte string that a running interpreter can hold. *)
Definition bytes_ok (b : bytes) : Prop := len b <= PY_SSIZE_T_MAX.

Definition byte_of_Z (z : Z) : byte :=
  default x00 (Byte.of_N (Z.to_N (z mod 256))).

Definition Z_of_byte (b : byte) : Z := Z.of_N (Byte.to_N b).

(** ** The [struct] module, restricted to what the script uses

    Byte order [<]: little-endian, standard sizes, no alignment.
    Format codes [I] (unsigned 32 bit), [Q] (unsigned 64 bit) and [x]
    (one pad byte, consumes no argument), each with an optional decimal
    repeat count. *)
Module Struct.

Inductive code : Set := I | Q | x.

Definition size_of (c : code) : nat :=
  match c with I => 4%nat | Q => 8%nat | x => 1%nat end.

Definition code_of_ascii (a : ascii) : option code :=
  if decide (a = "I"%char) then Some I
  else if decide (a = "Q"%char) then Some Q
  else if decide (a = "x"%char) then Some x
  else None.

Definition digit_of_ascii (a : ascii) : option nat :=
  let n := nat_of_ascii a in
  if decide (48 <= n < 58)%nat then Some (n - 48)%nat else None.

(** Scan the codes of a format; [cnt] is the repeat count read so far
    ([None] when no digit precedes the code, which means once). *)
Fixpoint parse_codes (cnt : option nat) (s : string) : option (list code) :=
  match s with
  | EmptyString => match cnt with None => Some [] | Some _ => None end
  | String a s' =>
      match digit_of_ascii a with
      | Some d => parse_codes (Some (10 * default 0%nat cnt + d)%nat) s'
      | None =>
          c ← code_of_ascii a;
          rest ← parse_codes None s';
          Some (replicate (default 1%nat cnt) c ++ rest)
      end
  end.

(** Only the [<] byte order is modelled. *)
Definition parse_format (s : string) : option (list code) :=
  match s with
  | String a s' => if decide (a = "<"%char) then parse_codes None s' else None
  | EmptyString => None
  end.

Definition calcsize (f : list code) : nat :=
  foldr (λ c n, (size_of c + n)%nat) 0%nat f.

(** [n] bytes of [v], least significant first. *)
Fixpoint le_bytes (n : nat) (v : Z) : bytes :=
  match n with
  | O => []
  | S n' => byte_of_Z (v mod 256) :: le_bytes n' (v / 256)
  end.

Fixpoint le_value (b : bytes) : Z :=
  match b with
  | [] => 0
  | b0 :: b' => Z_of_byte b0 + 256 * le_value b'
  end.

(** The range check of the unsigned codes: [struct.error] outside. *)
Definition fits (n : nat) (v : Z) : Prop := 0 <= v < 2 ^ (8 * Z.of_nat n).

#[global] Instance fits_dec n v : Decision (fits n v).
Proof. unfold fits. apply _. Defined.

(** [None] stands for [struct.error]: an argument out of range, or a
    number of arguments that differs from what the format asks for. *)
Fixpoint pack_codes (f : list code) (vs : list Z) : option bytes :=
  match f with
  | [] => match vs with [] => Some [] | _ :: _ => None end
  | x :: f' => rest ← pack_codes f' vs; Some (x00 :: rest)
  | c :: f' =>
      match vs with
      | [] => None
      | v :: vs' =>
          if decide (fits (size_of c) v)
          then rest ← pack_codes f' vs'; Some (le_bytes (size_of c) v ++ rest)
          else None
      end
  end.

Definition pack (format : string) (vs : list Z) : option bytes :=
  f ← parse_format format; pack_codes f vs.

(** [None] stands for [struct.error]: the buffer has the wrong size. *)
Fixpoint unpack_codes (f : list code) (b : bytes) : option (list Z) :=
  match f with
  | [] => match b with [] => Some [] | _ :: _ => None end
  | x :: f' =>
      match b with
      | [] => None
      | _ :: b' => unpack_codes f' b'
      end
  | c :: f' =>
      if decide (size_of c <= length b)%nat
      then vs ← unpack_codes f' (drop (size_of c) b);
           Some (le_value (take (size_of c) b) :: vs)
      else None
  end.

Definition unpack (format : string) (b : bytes) : option (list Z) :=
  f ← parse_format format; unpack_codes f b.

End Struct.

(** The format of the header, as the script writes it. *)
Definition HEADER_FORMAT : string := "<IIQQQQQQI4x".

(** ** Formatting integers in f-strings *)

(** [f"{n}"]: decimal. *)
Definition str (n : Z) : string :=
  DecimalString.NilZero.string_of_int (Z.to_int n).

(** [f"{n:x}"]: lower-case hexadecimal, with a sign for negative [n]. *)
Definition format_x (n : Z) : string :=
  let digits := HexadecimalString.NilZero.string_of_uint
                  (N.to_hex_uint (Z.to_N (Z.abs n))) in
  if decide (n < 0) then "-" +:+ digits else digits.

(** ** The world the script runs in *)

(** The exceptions that can leave the script. *)
Inductive exn : Set :=
  | FileNotFoundError (path : string)
  | PermissionError (path : string)
  | StructError
  | AssertionError (msg : string)
  | IndexError
  | SystemExit (status : Z).

(** File-system calls, logged in the order they are made. *)
Inductive fscall : Set :=
  | OpenRead (path : string)
  | OpenWrite (path : string)
  | Write (path : string) (data : bytes)
  | GetSize (path : string).

Record world := World {
  files : gmap string bytes;      (* contents of the existing files *)
  noread : gset string;           (* paths that cannot be opened for reading *)
  nowrite : gset string;          (* paths that cannot be opened for writing *)
  stdout : list string;           (* the lines printed so far *)
  fslog : list fscall;            (* the file-system calls made so far *)
}.

Inductive result (A : Type) : Type :=
  | Ok (a : A)
  | Raise (e : exn).
Arguments Ok {A} a.
Arguments Raise {A} e.

Definition M (A : Type) : Type := world → result A * world.

Definition ret {A} (a : A) : M A := λ w, (Ok a, w).

Definition raise {A} (e : exn) : M A := λ w, (Raise e, w).

Definition bind {A B} (m : M A) (k : A → M B) : M B :=
  λ w, match m w with
       | (Ok a, w') => k a w'
       | (Raise e, w') => (Raise e, w')
       end.

Declare Scope py_scope.
Delimit Scope py_scope with py.
Notation "v <- m ;; k" := (bind m (λ v, k))
  (at level 100, m at next level, right associativity) : py_scope.
Notation "m ;; k" := (bind m (λ _, k))
  (at level 100, right associativity) : py_scope.

Definition log (c : fscall) (w : world) : world :=
  World (files w) (noread w) (nowrite w) (stdout w) (fslog w ++ [c]).

Definition set_files (fs : gmap string bytes) (w : world) : world :=
  World fs (noread w) (nowrite w) (stdout w) (fslog w).

(** [with open(path, 'rb') as f: f.read()] *)
Definition read_file (path : string) : M bytes :=
  λ w, let w' := log (OpenRead path) w in
       match files w !! path with
       | None => (Raise (FileNotFoundError path), w')
       | Some data =>
           if decide (path ∈ noread w)
           then (Raise (PermissionError path), w')
           else (Ok data, w')
       end.

(** [open(path, 'wb')]: the file is created, or truncated if it exists. *)
Definition open_wb (path : string) : M unit :=
  λ w, let w' := log (OpenWrite path) w in
       if decide (path ∈ nowrite w)
       then (Raise (PermissionError path), w')
       else (Ok (), set_files (<[path := []]> (files w)) w').

(** [f.write(data)] on the file opened at [path]. *)
Definition write (path : string) (data : bytes) : M unit :=
  λ w, (Ok (), set_files (alter (λ old, old ++ data) path (files w))
                 (log (Write path data) w)).

(** [os.path.getsize(path)] *)
Definition getsize (path : string) : M Z :=
  λ w, let w' := log (GetSize path) w in
       match files w !! path with
       | None => (Raise (FileNotFoundError path), w')
       | Some data => (Ok (len data), w')
       end.

(** [print(line)] *)
Definition print (line : string) : M unit :=
  λ w, (Ok (), World (files w) (noread w) (nowrite w)
                 (stdout w ++ [line]) (fslog w)).

(** ** The script *)

Definition code0 : Z := 0x14000010.
Definition code1 : Z := 0x00000000.
Definition flags : Z := 0x0.
Definition res2 : Z := 0.
Definition res3 : Z := 0.
Definition res4 : Z := 0.
Definition magic : Z := 0x644d5241.

Definition pack_header (text_offset image_size : Z) : option bytes :=
  Struct.pack HEADER_FORMAT
    [code0; code1; text_offset; image_size; flags; res2; res3; res4; magic].

Local Open Scope py_scope.

Definition make_arm64_image (input_bin output_image : string)
    (load_offset : Z) : M unit :=
  kernel_data <- read_file input_bin;;
  let kernel_size := len kernel_data in
  let text_offset := load_offset in
  let image_size := kernel_size + 64 in
  header <- match pack_header text_offset image_size with
            | Some h => ret h
            | None => raise StructError
            end;;
  (if decide (len header = 64) then ret ()
   else raise (AssertionError
                 ("Header must be 64 bytes, got " +:+ str (len header))));;
  open_wb output_image;;
  write output_image header;;
  write output_image kernel_data;;
  print ("Created ARM64 Image: " +:+ output_image);;
  print "  Header size: 64 bytes";;
  print ("  Kernel size: " +:+ str kernel_size +:+ " bytes");;
  total <- getsize output_image;;
  print ("  Total size: " +:+ str total +:+ " bytes");;
  print ("  Load offset: 0x" +:+ format_x text_offset).

(** The [__main__] block; [argv] is [sys.argv]. *)
Definition main (argv : list string) : M unit :=
  if decide (length argv < 3)%nat then
    prog <- match argv !! 0%nat with
            | Some a => ret a
            | None => raise IndexError
            end;;
    print ("Usage: " +:+ prog +:+ " <input.bin> <output.Image>");;
    raise (SystemExit 1)
  else
    match argv !! 1%nat, argv !! 2%nat with
    | Some a1, Some a2 => make_arm64_image a1 a2 0x0
    | _, _ => raise IndexError
    end.

Local Close Scope py_scope.

(** The exit status of the interpreter: 0 when the script runs to its
    end, the argument of [sys.exit], and 1 for an uncaught exception. *)
Definition exit_status {A} (r : result A) : Z :=
  match r with
  | Ok _ => 0
  | Raise (SystemExit status) => status
  | Raise _ => 1
  end.

(** The command line [prog arg1 ... argn]. *)
Definition run_cli (prog : string) (args : list string) : M unit :=
  main (prog :: args).

(** ** Decoding a header

    The reader's side of the format: the first 64 bytes of an image,
    unpacked with the format the script packs them with. *)

Record image_header := ImageHeader {
  h_code0 : Z;
  h_code1 : Z;
  h_text_offset : Z;
  h_image_size : Z;
  h_flags : Z;
  h_res2 : Z;
  h_res3 : Z;
  h_res4 : Z;
  h_magic : Z;
}.

Definition header_of_values (vs : list Z) : option image_header :=
  match vs with
  | [c0; c1; t; s; f; r2; r3; r4; m] => Some (ImageHeader c0 c1 t s f r2 r3 r4 m)
  | _ => None
  end.

Definition decode_header (b : bytes) : option image_header :=
  vs ← Struct.unpack HEADER_FORMAT b; header_of_values vs.

(** The A64 encoding of the unconditional branch [b #offset]: opcode
    [000101] in bits 31..26, the word offset in the 26 bits below. *)
Definition a64_b (offset : Z) : Z :=
  Z.lor (Z.shiftl 5 26) (Z.land (Z.shiftr offset 2) (Z.ones 26)).

(** The four bytes ["ARM\x64"] that identify an ARM64 Image. *)
Definition ARM64_MAGIC_BYTES : bytes := [x41; x52; x4d; x64].

(** ** The header, the report and the finished world in closed form *)

(** The 64 bytes of a header, field by field. *)
Definition header_bytes (text_offset image_size : Z) : bytes :=
  Struct.le_bytes 4 code0 ++ Struct.le_bytes 4 code1 ++
  Struct.le_bytes 8 text_offset ++ Struct.le_bytes 8 image_size ++
  Struct.le_bytes 8 flags ++ Struct.le_bytes 8 res2 ++
  Struct.le_bytes 8 res3 ++ Struct.le_bytes 8 res4 ++
  Struct.le_bytes 4 magic ++ [x00; x00; x00; x00].

(** The five lines printed at the end of a build. *)
Definition report (output_image : string) (kernel_size total load_offset : Z)
    : list string :=
  [ "Created ARM64 Image: " +:+ output_image;
    "  Header size: 64 bytes";
    "  Kernel size: " +:+ str kernel_size +:+ " bytes";
    "  Total size: " +:+ str total +:+ " bytes";
    "  Load offset: 0x" +:+ format_x load_offset ].

(** The world after a build that ran to its end. *)
Definition built (input_bin output_image : string) (load_offset : Z)
    (P h : bytes) (w : world) : world :=
  World (<[output_image := h ++ P]> (files w)) (noread w) (nowrite w)
    (stdout w ++ report output_image (len P) (len (h ++ P)) load_offset)
    (fslog w ++ [OpenRead input_bin; OpenWrite output_image;
                 Write output_image h; Write output_image P;
                 GetSize output_image]).

(** The usage line of the command. *)
Definition usage (prog : string) : string :=
  "Usage: " +:+ prog +:+ " <input.bin> <output.Image>".

(** ** Worlds to run the script in *)

(** An empty kernel binary. *)
Definition world_empty_payload : world :=
  World {[ "kernel.bin" := [] ]} ∅ ∅ [] [].

(** A kernel binary of 100 bytes. *)
Definition world_100 : world :=
  World {[ "kernel.bin" := replicate 100 xcc ]} ∅ ∅ [] [].

(** No file at all. *)
Definition world_no_input : world := World ∅ ∅ ∅ [] [].

(** The same 100 bytes under another name, an output file that
    exists already, and earlier output and calls. *)
Definition world_other : world :=
  World {[ "a.bin" := replicate 100 xcc; "old.Image" := [x01] ]} ∅ ∅
    ["earlier output"] [GetSize "a.bin"].


(** * Lemmas *)

(** The codes of the header's format. *)
Example header_format_codes :
  Struct.parse_format HEADER_FORMAT =
  Some (replicate 2 Struct.I ++ replicate 6 Struct.Q ++
        Struct.I :: replicate 4 Struct.x).
Proof. reflexivity. Qed.

(** ** Bytes and little-endian numbers *)

Lemma Z_of_byte_of_Z z : Z_of_byte (byte_of_Z z) = z mod 256.
Proof.
  unfold Z_of_byte, byte_of_Z.
  assert (Hr : 0 <= z mod 256 < 256) by (apply Z.mod_pos_bound; lia).
  destruct (Byte.of_N (Z.to_N (z mod 256))) as [b|] eqn:E; simpl.
  - apply Byte.to_of_N in E. rewrite E. lia.
  - apply Byte.of_N_None_iff in E. lia.
Qed.

Lemma Z_of_byte_range b : 0 <= Z_of_byte b < 256.
Proof.
  unfold Z_of_byte. pose proof (Byte.to_N_bounded b). lia.
Qed.

Lemma le_bytes_length n v : length (Struct.le_bytes n v) = n.
Proof.
  revert v. induction n as [|n IH]; intros v; simpl; [done|].
  by rewrite IH.
Qed.

Lemma le_value_le_bytes_mod n v :
  Struct.le_value (Struct.le_bytes n v) = v mod 2 ^ (8 * Z.of_nat n).
Proof.
  revert v. induction n as [|n IH]; intros v.
  - simpl. by rewrite Z.mod_1_r.
  - cbn [Struct.le_bytes Struct.le_value].
    rewrite Z_of_byte_of_Z, IH, Z.mod_mod by lia.
    replace (8 * Z.of_nat (S n)) with (8 + 8 * Z.of_nat n) by lia.
    rewrite Z.pow_add_r by lia.
    change (2 ^ 8) with 256.
    rewrite Z.rem_mul_r by lia. reflexivity.
Qed.

Lemma le_value_le_bytes n v :
  Struct.fits n v → Struct.le_value (Struct.le_bytes n v) = v.
Proof.
  intros Hfit. rewrite le_value_le_bytes_mod.
  apply Z.mod_small. exact Hfit.
Qed.

(** ** Packing and unpacking *)

Lemma pack_codes_length f vs b :
  Struct.pack_codes f vs = Some b → length b = Struct.calcsize f.
Proof.
  revert vs b. induction f as [|c f IH]; intros vs b.
  - destruct vs; simpl; [|done]. by intros [= <-].
  - destruct c; cbn [Struct.pack_codes Struct.calcsize foldr].
    1,2: destruct vs as [|v vs]; [done|];
         case_decide; [|done];
         destruct (Struct.pack_codes f vs) as [r|] eqn:E;
         cbn [mbind option_bind]; [|done];
         intros ?%(inj Some); subst b; rewrite length_app, le_bytes_length;
         by rewrite (IH _ _ E).
    destruct (Struct.pack_codes f vs) as [r|] eqn:E;
      cbn [mbind option_bind]; [|done].
    intros [= <-]. cbn [length]. by rewrite (IH _ _ E).
Qed.

Lemma unpack_pack_codes f vs b :
  Struct.pack_codes f vs = Some b → Struct.unpack_codes f b = Some vs.
Proof.
  revert vs b. induction f as [|c f IH]; intros vs b.
  - destruct vs; simpl; [|done]. by intros [= <-].
  - destruct c; cbn [Struct.pack_codes Struct.unpack_codes].
    1,2: destruct vs as [|v vs]; [done|];
         case_decide as Hfit; [|done];
         destruct (Struct.pack_codes f vs) as [r|] eqn:E;
         cbn [mbind option_bind]; [|done];
         intros ?%(inj Some); subst b;
         rewrite decide_True
           by (rewrite length_app, le_bytes_length; lia);
         rewrite drop_app_length' by (symmetry; apply le_bytes_length);
         rewrite take_app_length' by (symmetry; apply le_bytes_length);
         rewrite (IH _ _ E); cbn [mbind option_bind];
         by rewrite (le_value_le_bytes _ _ Hfit).
    destruct (Struct.pack_codes f vs) as [r|] eqn:E;
      cbn [mbind option_bind]; [|done].
    intros [= <-]. by apply IH.
Qed.

(** ** The header the script packs *)

Lemma fits_const n v :
  (0 <=? v) && (v <? 2 ^ (8 * Z.of_nat n)) = true → Struct.fits n v.
Proof. unfold Struct.fits. lia. Qed.

Lemma pack_header_spec t s :
  pack_header t s =
  if decide (Struct.fits 8 t ∧ Struct.fits 8 s)
  then Some (header_bytes t s) else None.
Proof.
  unfold pack_header, Struct.pack. rewrite header_format_codes.
  cbn [mbind option_bind replicate app Struct.pack_codes Struct.size_of].
  rewrite !(decide_True (P := Struct.fits 4 _)) by (by apply fits_const).
  rewrite (decide_True (P := Struct.fits 8 flags)) by (by apply fits_const).
  rewrite (decide_True (P := Struct.fits 8 res2)) by (by apply fits_const).
  rewrite (decide_True (P := Struct.fits 8 res3)) by (by apply fits_const).
  rewrite (decide_True (P := Struct.fits 8 res4)) by (by apply fits_const).
  destruct (decide (Struct.fits 8 t)) as [Ht|Ht];
    destruct (decide (Struct.fits 8 s)) as [Hs|Hs].
  - rewrite decide_True by done. reflexivity.
  - rewrite decide_False by tauto. reflexivity.
  - rewrite decide_False by tauto. reflexivity.
  - rewrite decide_False by tauto. reflexivity.
Qed.

Lemma header_bytes_length t s : length (header_bytes t s) = 64%nat.
Proof.
  unfold header_bytes. rewrite !length_app, !le_bytes_length. reflexivity.
Qed.

Lemma len_app (a b : bytes) : len (a ++ b) = len a + len b.
Proof. unfold len. rewrite length_app. lia. Qed.

Lemma header_bytes_len t s : len (header_bytes t s) = 64.
Proof. unfold len. by rewrite header_bytes_length. Qed.

Lemma pack_header_length t s h :
  pack_header t s = Some h → length h = 64%nat.
Proof.
  rewrite pack_header_spec. case_decide; [|done].
  intros ?%(inj Some). subst h. apply header_bytes_length.
Qed.

Lemma pack_header_fits t s h :
  pack_header t s = Some h →
  Struct.fits 8 t ∧ Struct.fits 8 s ∧ h = header_bytes t s.
Proof.
  rewrite pack_header_spec. case_decide as H; [|done].
  intros ?%(inj Some). by destruct H.
Qed.

Lemma decode_pack_header t s h :
  pack_header t s = Some h →
  decode_header h =
  Some (ImageHeader code0 code1 t s flags res2 res3 res4 magic).
Proof.
  unfold pack_header, Struct.pack, decode_header, Struct.unpack.
  rewrite header_format_codes. cbn [mbind option_bind].
  intros Hp. by rewrite (unpack_pack_codes _ _ _ Hp).
Qed.

(** A payload the interpreter can hold leaves room for the header in
    the 64-bit [image_size] field. *)
Lemma image_size_fits P : bytes_ok P → Struct.fits 8 (len P + 64).
Proof.
  unfold bytes_ok, PY_SSIZE_T_MAX, Struct.fits, len. lia.
Qed.

(** ** What a run of [make_arm64_image] does *)

(** Every path through the function, in the order the checks are made. *)
Lemma make_arm64_image_cases input_bin output_image load_offset w :
  make_arm64_image input_bin output_image load_offset w =
  match files w !! input_bin with
  | None => (Raise (FileNotFoundError input_bin), log (OpenRead input_bin) w)
  | Some P =>
      if decide (input_bin ∈ noread w)
      then (Raise (PermissionError input_bin), log (OpenRead input_bin) w)
      else match pack_header load_offset (len P + 64) with
           | None => (Raise StructError, log (OpenRead input_bin) w)
           | Some h =>
               if decide (output_image ∈ nowrite w)
               then (Raise (PermissionError output_image),
                     log (OpenWrite output_image)
                       (log (OpenRead input_bin) w))
               else (Ok (), built input_bin output_image load_offset P h w)
           end
  end.
Proof.
  unfold make_arm64_image, bind at 1. unfold read_file.
  destruct (files w !! input_bin) as [P|] eqn:Hin; [|done].
  destruct (decide (input_bin ∈ noread w)) as [Hnr|Hnr]; [done|].
  unfold bind at 1.
  destruct (pack_header load_offset (len P + 64)) as [h|] eqn:Hpack; [|done].
  unfold ret at 1. unfold bind at 1.
  assert (Hlen : len h = 64)
    by (unfold len; rewrite (pack_header_length _ _ _ Hpack); done).
  rewrite decide_True by exact Hlen.
  unfold ret at 1. unfold bind at 1. unfold open_wb.
  cbn [nowrite log].
  destruct (decide (output_image ∈ nowrite w)) as [Hnw|Hnw]; [done|].
  unfold bind. unfold write, print, getsize.
  cbn [files noread nowrite stdout fslog set_files log].
  rewrite !alter_insert_eq, lookup_insert_eq.
  unfold built, report.
  cbn [files noread nowrite stdout fslog set_files log app].
  rewrite <- !(assoc_L (++) (stdout w)), <- !(assoc_L (++) (fslog w)).
  cbn [app]. reflexivity.
Qed.

(** A build that ran to its end read a payload, packed a header for it
    and left the world [built]. *)
Lemma make_arm64_image_ok_inv input_bin output_image load_offset w w' :
  make_arm64_image input_bin output_image load_offset w = (Ok (), w') →
  ∃ P h, files w !! input_bin = Some P ∧ input_bin ∉ noread w ∧
         output_image ∉ nowrite w ∧
         pack_header load_offset (len P + 64) = Some h ∧
         w' = built input_bin output_image load_offset P h w.
Proof.
  rewrite make_arm64_image_cases.
  destruct (files w !! input_bin) as [P|]; [|done].
  case_decide; [done|].
  destruct (pack_header load_offset (len P + 64)) as [h|] eqn:Hp; [|done].
  case_decide; [done|].
  intros [= <-]. by exists P, h.
Qed.

(** With a readable input, a writable output, and numbers that fit their
    fields, a build runs to its end. *)
Lemma make_arm64_image_ok input_bin output_image load_offset w P :
  files w !! input_bin = Some P → input_bin ∉ noread w →
  output_image ∉ nowrite w → bytes_ok P → Struct.fits 8 load_offset →
  make_arm64_image input_bin output_image load_offset w =
  (Ok (), built input_bin output_image load_offset P
            (header_bytes load_offset (len P + 64)) w).
Proof.
  intros Hin Hnr Hnw HP Hlo. rewrite make_arm64_image_cases, Hin.
  rewrite decide_False by done.
  rewrite pack_header_spec,
    decide_True by (split; [done | by apply image_size_fits]).
  by rewrite decide_False by done.
Qed.

Lemma built_output input_bin output_image load_offset P h w :
  files (built input_bin output_image load_offset P h w) !! output_image =
  Some (h ++ P).
Proof. unfold built. cbn [files]. apply lookup_insert_eq. Qed.

Lemma take_header (h P : bytes) :
  length h = 64%nat → take 64 (h ++ P) = h.
Proof. intros Hh. by rewrite take_app_length'. Qed.

Lemma drop_header (h P : bytes) :
  length h = 64%nat → drop 64 (h ++ P) = P.
Proof. intros Hh. by rewrite drop_app_length'. Qed.

(** * The claims *)

(** C1. For every payload [P] found at the input path, a build that can
    run (readable input, writable output, a load offset that fits its
    field) writes exactly a 64-byte header followed by [P]: the output
    has [64 + len P] bytes and its bytes from 64 on are [P]. *)
Theorem output_is_header_then_payload
    input_bin output_image load_offset w P :
  files w !! input_bin = Some P → input_bin ∉ noread w →
  output_image ∉ nowrite w → bytes_ok P → Struct.fits 8 load_offset →
  ∃ w' h,
    make_arm64_image input_bin output_image load_offset w = (Ok (), w') ∧
    pack_header load_offset (len P + 64) = Some h ∧
    length h = 64%nat ∧
    files w' !! output_image = Some (h ++ P) ∧
    len (h ++ P) = 64 + len P ∧
    drop 64 (h ++ P) = P.
Proof.
  intros Hin Hnr Hnw HP Hlo.
  pose proof (make_arm64_image_ok _ _ _ _ _ Hin Hnr Hnw HP Hlo) as Hrun.
  eexists _, (header_bytes load_offset (len P + 64)).
  split; [exact Hrun|].
  assert (Hlen := header_bytes_length load_offset (len P + 64)).
  split.
  { rewrite pack_header_spec.
    by rewrite decide_True by (split; [done | by apply image_size_fits]). }
  split; [done|]. split; [apply built_output|]. split.
  - rewrite len_app, header_bytes_len. lia.
  - by apply drop_header.
Qed.

Lemma output_is_header_then_payload_witness :
  ∃ w' h,
    make_arm64_image "kernel.bin" "kernel.Image" 0 world_empty_payload
      = (Ok (), w') ∧
    pack_header 0 (len [] + 64) = Some h ∧
    length h = 64%nat ∧
    files w' !! "kernel.Image" = Some (h ++ []) ∧
    len (h ++ []) = 64 + len [] ∧
    drop 64 (h ++ []) = [].
Proof.
  apply (output_is_header_then_payload "kernel.bin" "kernel.Image" 0
           world_empty_payload []).
  - reflexivity.
  - apply not_elem_of_empty.
  - apply not_elem_of_empty.
  - vm_compute. discriminate.
  - vm_compute. split; [discriminate | reflexivity].
Defined.

(** The header of a finished build decodes to the values that were
    packed. *)
Lemma built_header_decodes input_bin output_image load_offset w w' :
  make_arm64_image input_bin output_image load_offset w = (Ok (), w') →
  ∃ P h, files w !! input_bin = Some P ∧
         files w' !! output_image = Some (h ++ P) ∧
         take 64 (h ++ P) = h ∧
         h = header_bytes load_offset (len P + 64) ∧
         decode_header h =
         Some (ImageHeader code0 code1 load_offset (len P + 64)
                 flags res2 res3 res4 magic).
Proof.
  intros (P & h & Hin & _ & _ & Hp & ->)%make_arm64_image_ok_inv.
  exists P, h. split; [done|]. split; [apply built_output|].
  split; [apply take_header; by eapply pack_header_length|].
  split; [by apply pack_header_fits in Hp as (_ & _ & ->)|].
  by apply decode_pack_header.
Qed.

(** C2. Whatever the payload [P] and the load offset, the first 64 bytes
    of the output of a build decode to a header with
    [image_size = 64 + len P] and [text_offset = load_offset]; and a
    build does produce its output when the input is readable, the output
    writable and the load offset fits its field. *)
Theorem header_records_size_and_offset
    input_bin output_image load_offset w P :
  files w !! input_bin = Some P →
  (∀ w', make_arm64_image input_bin output_image load_offset w = (Ok (), w') →
     ∃ img hd, files w' !! output_image = Some img ∧
               decode_header (take 64 img) = Some hd ∧
               h_image_size hd = 64 + len P ∧
               h_text_offset hd = load_offset) ∧
  (input_bin ∉ noread w → output_image ∉ nowrite w → bytes_ok P →
   Struct.fits 8 load_offset →
   ∃ w', make_arm64_image input_bin output_image load_offset w = (Ok (), w')).
Proof.
  intros Hin. split.
  - intros w' (P' & h & Hin' & Hout & Htake & _ & Hdec)%built_header_decodes.
    assert (P' = P) as -> by congruence.
    eexists _, _. split; [exact Hout|]. rewrite Htake.
    split; [exact Hdec|]. cbn. split; [lia | done].
  - intros Hnr Hnw HP Hlo. eexists. by apply make_arm64_image_ok.
Qed.

Lemma header_records_size_and_offset_witness :
  ∃ w' img hd,
    make_arm64_image "kernel.bin" "kernel.Image" 0x80000 world_100
      = (Ok (), w') ∧
    files w' !! "kernel.Image" = Some img ∧
    decode_header (take 64 img) = Some hd ∧
    h_image_size hd = 164 ∧ h_text_offset hd = 0x80000.
Proof.
  destruct (header_records_size_and_offset "kernel.bin" "kernel.Image"
              0x80000 world_100 (replicate 100 xcc) eq_refl)
    as [Hdecodes Hruns].
  destruct Hruns as [w' Hrun].
  - apply not_elem_of_empty.
  - apply not_elem_of_empty.
  - vm_compute. discriminate.
  - vm_compute. split; [discriminate | reflexivity].
  - destruct (Hdecodes w' Hrun) as (img & hd & Hout & Hdec & Hsz & Hoff).
    exists w', img, hd. repeat split; assumption.
Defined.

(** C3. In the header of every finished build the fields other than
    [text_offset] and [image_size] are constants: [code0] is the A64
    encoding of a branch 0x40 bytes forward, [magic] is the identifier
    of the ARM64 Image format (the bytes "ARM" and 0x64 on disk), and
    [code1], [flags], the three reserved fields and the four pad bytes
    are zero. *)
Theorem header_constant_fields input_bin output_image load_offset w w' :
  make_arm64_image input_bin output_image load_offset w = (Ok (), w') →
  ∃ img hd, files w' !! output_image = Some img ∧
            decode_header (take 64 img) = Some hd ∧
            h_code0 hd = a64_b 0x40 ∧
            h_magic hd = Struct.le_value ARM64_MAGIC_BYTES ∧
            take 4 (drop 56 img) = ARM64_MAGIC_BYTES ∧
            h_code1 hd = 0 ∧ h_flags hd = 0 ∧
            h_res2 hd = 0 ∧ h_res3 hd = 0 ∧ h_res4 hd = 0 ∧
            take 4 (drop 60 img) = [x00; x00; x00; x00].
Proof.
  intros (P & h & _ & Hout & Htake & Hh & Hdec)%built_header_decodes.
  eexists _, _. split; [exact Hout|]. rewrite Htake.
  split; [exact Hdec|]. cbn [h_code0 h_code1 h_flags h_res2 h_res3 h_res4 h_magic].
  assert (Hat : ∀ n k : nat, (n + k <= 64)%nat →
                 take k (drop n (h ++ P)) = take k (drop n h)).
  { intros n k Hnk.
    assert (length h = 64%nat) by (rewrite Hh; apply header_bytes_length).
    rewrite drop_app_le by lia.
    rewrite take_app_le by (rewrite length_drop; lia). done. }
  rewrite !Hat by lia. rewrite Hh.
  repeat split; reflexivity.
Qed.

Lemma header_constant_fields_witness :
  ∃ w' img hd,
    make_arm64_image "kernel.bin" "kernel.Image" 0x80000 world_100
      = (Ok (), w') ∧
    files w' !! "kernel.Image" = Some img ∧
    decode_header (take 64 img) = Some hd ∧
    h_code0 hd = 0x14000010 ∧ h_magic hd = 0x644d5241 ∧
    take 4 (drop 56 img) = ARM64_MAGIC_BYTES ∧
    h_code1 hd = 0 ∧ h_flags hd = 0 ∧
    h_res2 hd = 0 ∧ h_res3 hd = 0 ∧ h_res4 hd = 0 ∧
    take 4 (drop 60 img) = [x00; x00; x00; x00].
Proof.
  assert (Hrun :
    make_arm64_image "kernel.bin" "kernel.Image" 0x80000 world_100 =
    (Ok (), (make_arm64_image "kernel.bin" "kernel.Image" 0x80000
               world_100).2))
    by (vm_compute; reflexivity).
  destruct (header_constant_fields _ _ _ _ _ Hrun)
    as (img & hd & Hout & Hdec & Hc0 & Hm & Hmb & Hrest).
  eexists _, img, hd. split; [exact Hrun|].
  split; [exact Hout|]. split; [exact Hdec|].
  split; [exact Hc0|]. split; [exact Hm|]. split; [exact Hmb|].
  exact Hrest.
Defined.

(** C4. For every payload and every load offset that fits its field the
    packed header has exactly 64 bytes; and no run of the build, whatever
    its arguments, ends in the assertion on the header's size. *)
Theorem header_is_64_bytes load_offset P :
  Struct.fits 8 load_offset → bytes_ok P →
  (∃ h, pack_header load_offset (len P + 64) = Some h ∧ len h = 64) ∧
  (∀ input_bin output_image lo w msg,
     (make_arm64_image input_bin output_image lo w).1
     ≠ Raise (AssertionError msg)).
Proof.
  intros Hlo HP. split.
  - exists (header_bytes load_offset (len P + 64)). split.
    + rewrite pack_header_spec.
      by rewrite decide_True by (split; [done | by apply image_size_fits]).
    + apply header_bytes_len.
  - intros input_bin output_image lo w msg.
    rewrite make_arm64_image_cases.
    destruct (files w !! input_bin) as [P'|]; [|done].
    case_decide; [done|].
    destruct (pack_header lo (len P' + 64)); [|done].
    by case_decide.
Qed.

Lemma header_is_64_bytes_witness :
  (∃ h, pack_header 0x80000 (len (replicate 100 xcc) + 64) = Some h ∧
        len h = 64) ∧
  (∀ input_bin output_image lo w msg,
     (make_arm64_image input_bin output_image lo w).1
     ≠ Raise (AssertionError msg)).
Proof.
  apply (header_is_64_bytes 0x80000 (replicate 100 xcc)).
  - vm_compute. split; [discriminate | reflexivity].
  - vm_compute. discriminate.
Defined.

(** C5. If the input file does not exist or cannot be read, the build
    fails with an I/O error at the open of the input: no file is
    created or changed, nothing is printed, and an output path that did
    not exist still does not exist. *)
Theorem missing_input_fails_before_write
    input_bin output_image load_offset w :
  files w !! input_bin = None ∨ input_bin ∈ noread w →
  ∃ e w',
    make_arm64_image input_bin output_image load_offset w = (Raise e, w') ∧
    (e = FileNotFoundError input_bin ∨ e = PermissionError input_bin) ∧
    files w' = files w ∧
    stdout w' = stdout w ∧
    fslog w' = fslog w ++ [OpenRead input_bin] ∧
    (files w !! output_image = None → files w' !! output_image = None).
Proof.
  intros Hbad. rewrite make_arm64_image_cases.
  destruct (files w !! input_bin) as [P|] eqn:Hin.
  - destruct Hbad as [|Hnr]; [done|].
    rewrite decide_True by done.
    eexists _, _. split; [reflexivity|]. split; [by right|].
    by repeat split.
  - eexists _, _. split; [reflexivity|]. split; [by left|].
    by repeat split.
Qed.

Lemma missing_input_fails_before_write_witness :
  ∃ e w',
    make_arm64_image "absent.bin" "kernel.Image" 0 world_no_input
      = (Raise e, w') ∧
    (e = FileNotFoundError "absent.bin" ∨ e = PermissionError "absent.bin") ∧
    files w' = files world_no_input ∧
    stdout w' = stdout world_no_input ∧
    fslog w' = fslog world_no_input ++ [OpenRead "absent.bin"] ∧
    (files world_no_input !! "kernel.Image" = None →
     files w' !! "kernel.Image" = None).
Proof.
  apply (missing_input_fails_before_write "absent.bin" "kernel.Image" 0
           world_no_input).
  left. reflexivity.
Defined.

(** C6. Called with no or with one positional argument, the program
    prints the usage line and exits with status 1, without any call on
    the file system: no file is read, created or changed. *)
Theorem too_few_arguments_usage prog args w :
  (length args <= 1)%nat →
  ∃ r w',
    run_cli prog args w = (r, w') ∧
    exit_status r = 1 ∧
    stdout w' = stdout w ++ [usage prog] ∧
    files w' = files w ∧
    fslog w' = fslog w.
Proof.
  intros Hargs. unfold run_cli, main.
  rewrite decide_True by (cbn [length]; lia).
  eexists _, _. split; [reflexivity|]. by repeat split.
Qed.

Lemma too_few_arguments_usage_witness :
  ∃ r w',
    run_cli "make_image.py" ["kernel.bin"] world_100 = (r, w') ∧
    exit_status r = 1 ∧
    stdout w' = stdout world_100 ++ [usage "make_image.py"] ∧
    files w' = files world_100 ∧
    fslog w' = fslog world_100.
Proof.
  apply (too_few_arguments_usage "make_image.py" ["kernel.bin"] world_100).
  simpl. lia.
Defined.

(** C7. Builds are determined by the payload and the load offset: two
    finished runs, in any two worlds and on any paths, that read the
    same bytes and are given the same load offset leave byte-identical
    output files. *)
Theorem same_input_same_output
    in1 out1 in2 out2 load_offset w1 w2 w1' w2' P :
  files w1 !! in1 = Some P → files w2 !! in2 = Some P →
  make_arm64_image in1 out1 load_offset w1 = (Ok (), w1') →
  make_arm64_image in2 out2 load_offset w2 = (Ok (), w2') →
  ∃ img, files w1' !! out1 = Some img ∧ files w2' !! out2 = Some img.
Proof.
  intros Hin1 Hin2
    (P1 & h1 & Hin1' & _ & _ & Hp1 & ->)%make_arm64_image_ok_inv
    (P2 & h2 & Hin2' & _ & _ & Hp2 & ->)%make_arm64_image_ok_inv.
  assert (P1 = P) as -> by congruence.
  assert (P2 = P) as -> by congruence.
  assert (h2 = h1) as -> by congruence.
  exists (h1 ++ P). split; apply built_output.
Qed.

Lemma same_input_same_output_witness :
  ∃ w1' w2' img,
    make_arm64_image "kernel.bin" "kernel.Image" 0x80000 world_100
      = (Ok (), w1') ∧
    make_arm64_image "a.bin" "old.Image" 0x80000 world_other
      = (Ok (), w2') ∧
    files w1' !! "kernel.Image" = Some img ∧
    files w2' !! "old.Image" = Some img.
Proof.
  assert (Hrun1 :
    make_arm64_image "kernel.bin" "kernel.Image" 0x80000 world_100 =
    (Ok (), (make_arm64_image "kernel.bin" "kernel.Image" 0x80000
               world_100).2))
    by (vm_compute; reflexivity).
  assert (Hrun2 :
    make_arm64_image "a.bin" "old.Image" 0x80000 world_other =
    (Ok (), (make_arm64_image "a.bin" "old.Image" 0x80000
               world_other).2))
    by (vm_compute; reflexivity).
  assert (Hin1 : files world_100 !! "kernel.bin" = Some (replicate 100 xcc))
    by (vm_compute; reflexivity).
  assert (Hin2 : files world_other !! "a.bin" = Some (replicate 100 xcc))
    by (vm_compute; reflexivity).
  destruct (same_input_same_output _ _ _ _ _ _ _ _ _ _ Hin1 Hin2 Hrun1 Hrun2)
    as (img & Hout1 & Hout2).
  eexists _, _, img.
  split; [exact Hrun1|]. split; [exact Hrun2|]. by split.
Defined.

(** C8, as the claim states it: a finished build has printed four
    lines.  It has printed five. *)
Lemma four_lines_counterexample :
  ¬ (∀ input_bin output_image load_offset w w',
       make_arm64_image input_bin output_image load_offset w = (Ok (), w') →
       ∃ l1 l2 l3 l4, stdout w' = stdout w ++ [l1; l2; l3; l4]).
Proof.
  intros Hfour.
  assert (Hrun :
    make_arm64_image "kernel.bin" "kernel.Image" 0 world_empty_payload =
    (Ok (), (make_arm64_image "kernel.bin" "kernel.Image" 0
               world_empty_payload).2))
    by (vm_compute; reflexivity).
  destruct (Hfour _ _ _ _ _ Hrun) as (l1 & l2 & l3 & l4 & Hout).
  apply (f_equal length) in Hout. vm_compute in Hout. discriminate.
Qed.

(** C8, amended. A finished build has added five lines to the standard
    output, in this order: the output path, the header size (64), the
    size of the payload, the size of the output file (64 more), and the
    load offset in hexadecimal. *)
Theorem success_prints_five_lines input_bin output_image load_offset w w' :
  make_arm64_image input_bin output_image load_offset w = (Ok (), w') →
  ∃ P, files w !! input_bin = Some P ∧
       stdout w' = stdout w ++
         [ "Created ARM64 Image: " +:+ output_image;
           "  Header size: 64 bytes";
           "  Kernel size: " +:+ str (len P) +:+ " bytes";
           "  Total size: " +:+ str (64 + len P) +:+ " bytes";
           "  Load offset: 0x" +:+ format_x load_offset ].
Proof.
  intros (P & h & Hin & _ & _ & Hp & ->)%make_arm64_image_ok_inv.
  exists P. split; [done|]. unfold built, report. cbn [stdout].
  rewrite len_app.
  replace (len h) with 64; [done|].
  unfold len. by rewrite (pack_header_length _ _ _ Hp).
Qed.

Lemma success_prints_five_lines_witness :
  ∃ w', make_arm64_image "kernel.bin" "kernel.Image" 0x80000 world_100
          = (Ok (), w') ∧
        stdout w' =
          [ "Created ARM64 Image: kernel.Image";
            "  Header size: 64 bytes";
            "  Kernel size: 100 bytes";
            "  Total size: 164 bytes";
            "  Load offset: 0x80000" ].
Proof.
  assert (Hrun :
    make_arm64_image "kernel.bin" "kernel.Image" 0x80000 world_100 =
    (Ok (), (make_arm64_image "kernel.bin" "kernel.Image" 0x80000
               world_100).2))
    by (vm_compute; reflexivity).
  destruct (success_prints_five_lines _ _ _ _ _ Hrun) as (P & Hin & Hout).
  eexists. split; [exact Hrun|].
  assert (Hin' : files world_100 !! "kernel.bin" = Some (replicate 100 xcc))
    by (vm_compute; reflexivity).
  assert (P = replicate 100 xcc) as -> by congruence.
  rewrite Hout. vm_compute. reflexivity.
Defined.

(** C9, as the claim states it: a load offset too large for the 8-byte
    field is let through and the build completes.  With 2^64 it does
    not. *)
Lemma oversized_offset_counterexample :
  ¬ (∀ input_bin output_image load_offset w P,
       files w !! input_bin = Some P → input_bin ∉ noread w →
       output_image ∉ nowrite w → bytes_ok P →
       2 ^ 64 <= load_offset →
       ∃ w', make_arm64_image input_bin output_image load_offset w
             = (Ok (), w')).
Proof.
  intros Hpermits.
  destruct (Hpermits "kernel.bin" "kernel.Image" (2 ^ 64) world_100
              (replicate 100 xcc)) as [w' Hrun].
  - vm_compute. reflexivity.
  - apply not_elem_of_empty.
  - apply not_elem_of_empty.
  - vm_compute. discriminate.
  - lia.
  - vm_compute in Hrun. discriminate.
Qed.

(** C9, amended. The function has no bounds check of its own on the load
    offset, but packing the header rejects a value too large for the
    8-byte field: once the input is read the build stops with
    [struct.error], before the output is opened, so no file is created
    or changed and nothing is printed. *)
Theorem oversized_offset_rejected input_bin output_image load_offset w P :
  files w !! input_bin = Some P → input_bin ∉ noread w →
  2 ^ 64 <= load_offset →
  ∃ w', make_arm64_image input_bin output_image load_offset w
          = (Raise StructError, w') ∧
        files w' = files w ∧ stdout w' = stdout w ∧
        fslog w' = fslog w ++ [OpenRead input_bin].
Proof.
  intros Hin Hnr Hbig. rewrite make_arm64_image_cases, Hin.
  rewrite decide_False by done.
  rewrite pack_header_spec, decide_False.
  - eexists. split; [reflexivity|]. by repeat split.
  - unfold Struct.fits. intros [[_ Hlt] _].
    change (2 ^ (8 * Z.of_nat 8)) with (2 ^ 64) in Hlt. lia.
Qed.

Lemma oversized_offset_rejected_witness :
  ∃ w', make_arm64_image "kernel.bin" "kernel.Image" (2 ^ 64) world_100
          = (Raise StructError, w') ∧
        files w' = files world_100 ∧ stdout w' = stdout world_100 ∧
        fslog w' = fslog world_100 ++ [OpenRead "kernel.bin"].
Proof.
  apply (oversized_offset_rejected "kernel.bin" "kernel.Image" (2 ^ 64)
           world_100 (replicate 100 xcc)).
  - vm_compute. reflexivity.
  - apply not_elem_of_empty.
  - lia.
Defined.

(** C10. Called with two or more positional arguments, the program
    builds from the first two and ignores the rest: the call is
    [make_arm64_image arg1 arg2] with the default load offset 0, the
    [text_offset] field of every header it writes is 0, and the build
    does run when the input is readable and the output writable. *)
Theorem cli_uses_default_offset prog arg1 arg2 rest w :
  run_cli prog (arg1 :: arg2 :: rest) w = make_arm64_image arg1 arg2 0 w ∧
  (∀ w', run_cli prog (arg1 :: arg2 :: rest) w = (Ok (), w') →
     ∃ img hd, files w' !! arg2 = Some img ∧
               decode_header (take 64 img) = Some hd ∧
               h_text_offset hd = 0) ∧
  (∀ P, files w !! arg1 = Some P → arg1 ∉ noread w → arg2 ∉ nowrite w →
        bytes_ok P →
        ∃ w', run_cli prog (arg1 :: arg2 :: rest) w = (Ok (), w')).
Proof.
  assert (Hcall : run_cli prog (arg1 :: arg2 :: rest) w =
                  make_arm64_image arg1 arg2 0 w).
  { unfold run_cli, main.
    rewrite decide_False by (cbn [length]; lia). reflexivity. }
  split; [exact Hcall|]. rewrite Hcall. split.
  - intros w' (P & h & _ & Hout & Htake & _ & Hdec)%built_header_decodes.
    eexists _, _. split; [exact Hout|]. rewrite Htake. by split.
  - intros P Hin Hnr Hnw HP. eexists.
    apply make_arm64_image_ok; [done..|].
    unfold Struct.fits. split; [lia|]. by apply Z.pow_pos_nonneg.
Qed.

(** * Further properties of the script *)

(** ** What a build leaves alone *)







(** ** When a build succeeds, and when packing fails *)


(** With a readable input, the build stops with [struct.error] exactly
    when the load offset is negative or does not fit in 64 bits. *)
Theorem struct_error_iff_offset_out_of_range
    input_bin output_image load_offset w P :
  files w !! input_bin = Some P → input_bin ∉ noread w → bytes_ok P →
  (make_arm64_image input_bin output_image load_offset w).1
    = Raise StructError ↔
  load_offset < 0 ∨ 2 ^ 64 <= load_offset.
Proof.
  intros Hin Hnr HP. rewrite make_arm64_image_cases, Hin.
  rewrite decide_False by done. rewrite pack_header_spec.
  pose proof (image_size_fits P HP) as Hsz.
  case_decide as Hfit.
  - destruct Hfit as [[? Hlt] _].
    change (2 ^ (8 * Z.of_nat 8)) with (2 ^ 64) in Hlt.
    case_decide; cbn [fst]; split; (done || lia).
  - cbn [fst]. split; [|done]. intros _.
    destruct (decide (load_offset < 0)); [by left|]. right.
    destruct (decide (2 ^ 64 <= load_offset)); [done|].
    exfalso. apply Hfit. split; [|done]. unfold Struct.fits.
    change (2 ^ (8 * Z.of_nat 8)) with (2 ^ 64). lia.
Qed.

Lemma struct_error_iff_offset_out_of_range_witness :
  (make_arm64_image "kernel.bin" "kernel.Image" (-1) world_100).1
    = Raise StructError ↔
  -1 < 0 ∨ 2 ^ 64 <= -1.
Proof.
  apply (struct_error_iff_offset_out_of_range "kernel.bin" "kernel.Image"
           (-1) world_100 (replicate 100 xcc)).
  - vm_compute. reflexivity.
  - apply not_elem_of_empty.
  - vm_compute. discriminate.
Defined.

(** ** The order of the file-system calls *)

(** A finished build has made five calls, in this order: it opened the
    input, opened the output, wrote the 64-byte header, wrote the
    payload it had read, and asked for the size of the output. *)
Theorem build_call_order input_bin output_image load_offset w w' :
  make_arm64_image input_bin output_image load_offset w = (Ok (), w') →
  ∃ P h, files w !! input_bin = Some P ∧ length h = 64%nat ∧
         fslog w' = fslog w ++
           [OpenRead input_bin; OpenWrite output_image;
            Write output_image h; Write output_image P;
            GetSize output_image].
Proof.
  intros (P & h & Hin & _ & _ & Hp & ->)%make_arm64_image_ok_inv.
  exists P, h. split; [done|]. split; [|done].
  by eapply pack_header_length.
Qed.

Lemma build_call_order_witness :
  ∃ w' P h,
    make_arm64_image "kernel.bin" "kernel.Image" 0x80000 world_100
      = (Ok (), w') ∧
    files world_100 !! "kernel.bin" = Some P ∧ length h = 64%nat ∧
    fslog w' = fslog world_100 ++
      [OpenRead "kernel.bin"; OpenWrite "kernel.Image";
       Write "kernel.Image" h; Write "kernel.Image" P;
       GetSize "kernel.Image"].
Proof.
  assert (Hrun :
    make_arm64_image "kernel.bin" "kernel.Image" 0x80000 world_100 =
    (Ok (), (make_arm64_image "kernel.bin" "kernel.Image" 0x80000
               world_100).2))
    by (vm_compute; reflexivity).
  destruct (build_call_order _ _ _ _ _ Hrun) as (P & h & Hin & Hh & Hlog).
  eexists _, P, h. split; [exact Hrun|]. by repeat split.
Defined.

(** ** The header on disk *)

(** The size the header records is the size of the file: in the output
    of a finished build the [image_size] field equals the length of the
    whole output file. *)
Theorem image_size_is_file_size input_bin output_image load_offset w w' :
  make_arm64_image input_bin output_image load_offset w = (Ok (), w') →
  ∃ img hd, files w' !! output_image = Some img ∧
            decode_header (take 64 img) = Some hd ∧
            h_image_size hd = len img.
Proof.
  intros (P & h & _ & Hout & Htake & Hh & Hdec)%built_header_decodes.
  eexists _, _. split; [exact Hout|]. rewrite Htake.
  split; [exact Hdec|]. cbn [h_image_size].
  rewrite len_app, Hh, header_bytes_len. lia.
Qed.

Lemma image_size_is_file_size_witness :
  ∃ w' img hd,
    make_arm64_image "kernel.bin" "kernel.Image" 0x80000 world_100
      = (Ok (), w') ∧
    files w' !! "kernel.Image" = Some img ∧
    decode_header (take 64 img) = Some hd ∧
    h_image_size hd = len img.
Proof.
  assert (Hrun :
    make_arm64_image "kernel.bin" "kernel.Image" 0x80000 world_100 =
    (Ok (), (make_arm64_image "kernel.bin" "kernel.Image" 0x80000
               world_100).2))
    by (vm_compute; reflexivity).
  destruct (image_size_is_file_size _ _ _ _ _ Hrun)
    as (img & hd & Hout & Hdec & Hsz).
  eexists _, img, hd. split; [exact Hrun|]. by repeat split.
Defined.

(** Where the fields lie in the file: the output of a finished build
    starts with the four bytes 10 00 00 14 of the branch instruction,
    its bytes 8 to 15 are the load offset and its bytes 16 to 23 the
    image size, both least significant byte first. *)
Theorem header_field_offsets input_bin output_image load_offset w w' :
  make_arm64_image input_bin output_image load_offset w = (Ok (), w') →
  ∃ P img, files w !! input_bin = Some P ∧
           files w' !! output_image = Some img ∧
           take 4 img = [x10; x00; x00; x14] ∧
           Struct.le_value (take 8 (drop 8 img)) = load_offset ∧
           Struct.le_value (take 8 (drop 16 img)) = len P + 64.
Proof.
  intros (P & h & Hin & _ & _ & Hp & ->)%make_arm64_image_ok_inv.
  exists P, (h ++ P). split; [done|]. split; [apply built_output|].
  apply pack_header_fits in Hp as (Hlo & Hsz & ->).
  unfold header_bytes. rewrite <- !(assoc_L (++)).
  split; [reflexivity|].
  set (rest := Struct.le_bytes 8 flags ++ _).
  split.
  - rewrite (assoc_L (++) (Struct.le_bytes 4 code0)).
    rewrite drop_app_length' by reflexivity.
    rewrite take_app_length' by (by rewrite le_bytes_length).
    by apply le_value_le_bytes.
  - rewrite (assoc_L (++) (Struct.le_bytes 4 code0)).
    rewrite (assoc_L (++) _ (Struct.le_bytes 8 load_offset)).
    rewrite drop_app_length'
      by (by rewrite !length_app, !le_bytes_length).
    rewrite take_app_length' by (by rewrite le_bytes_length).
    by apply le_value_le_bytes.
Qed.

Lemma header_field_offsets_witness :
  ∃ w' img,
    make_arm64_image "kernel.bin" "kernel.Image" 0x80000 world_100
      = (Ok (), w') ∧
    files w' !! "kernel.Image" = Some img ∧
    take 4 img = [x10; x00; x00; x14] ∧
    Struct.le_value (take 8 (drop 8 img)) = 0x80000 ∧
    Struct.le_value (take 8 (drop 16 img)) = 164.
Proof.
  assert (Hrun :
    make_arm64_image "kernel.bin" "kernel.Image" 0x80000 world_100 =
    (Ok (), (make_arm64_image "kernel.bin" "kernel.Image" 0x80000
               world_100).2))
    by (vm_compute; reflexivity).
  destruct (header_field_offsets _ _ _ _ _ Hrun)
    as (P & img & Hin & Hout & Hc0 & Hlo & Hsz).
  assert (Hin' : files world_100 !! "kernel.bin" = Some (replicate 100 xcc))
    by (vm_compute; reflexivity).
  assert (P = replicate 100 xcc) as -> by congruence.
  eexists _, img. split; [exact Hrun|]. by repeat split.
Defined.

(** Packing loses nothing: a header unpacks to the nine values it was
    packed from, so two headers are equal only if they were packed from
    the same load offset and the same image size. *)
Theorem pack_header_injective t s t' s' h :
  pack_header t s = Some h → pack_header t' s' = Some h →
  decode_header h = Some (ImageHeader code0 code1 t s
                            flags res2 res3 res4 magic) ∧
  t = t' ∧ s = s'.
Proof.
  intros Hp%decode_pack_header Hp'%decode_pack_header.
  split; [exact Hp|]. rewrite Hp in Hp'. by injection Hp'.
Qed.

Lemma pack_header_injective_witness :
  ∃ h, pack_header 0x80000 164 = Some h ∧
       decode_header h = Some (ImageHeader 0x14000010 0 0x80000 164
                                 0 0 0 0 0x644d5241).
Proof.
  assert (Hp : pack_header 0x80000 164 =
               Some (default [] (pack_header 0x80000 164)))
    by (vm_compute; reflexivity).
  destruct (pack_header_injective _ _ _ _ _ Hp Hp) as (Hdec & _ & _).
  eexists. split; [exact Hp | exact Hdec].
Defined.

(** ** Running the build again *)



(** Building in place is not idempotent.  With the same path for input
    and output the input is read in full before the output is opened,
    so the file becomes a header followed by its former content; a
    second run wraps that image again, and the outer header records 128
    bytes more than the original payload. *)
Theorem in_place_build_twice path load_offset w P :
  files w !! path = Some P → path ∉ noread w → path ∉ nowrite w →
  len P + 64 <= PY_SSIZE_T_MAX → Struct.fits 8 load_offset →
  ∃ w1 w2 h1 h2,
    make_arm64_image path path load_offset w = (Ok (), w1) ∧
    make_arm64_image path path load_offset w1 = (Ok (), w2) ∧
    pack_header load_offset (len P + 64) = Some h1 ∧
    pack_header load_offset (len P + 128) = Some h2 ∧
    files w1 !! path = Some (h1 ++ P) ∧
    files w2 !! path = Some (h2 ++ h1 ++ P).
Proof.
  intros Hin Hnr Hnw HP Hlo.
  assert (HP0 : bytes_ok P) by (unfold bytes_ok; lia).
  pose proof (make_arm64_image_ok _ path _ _ _ Hin Hnr Hnw HP0 Hlo) as Hrun1.
  set (h1 := header_bytes load_offset (len P + 64)) in *.
  set (w1 := built path path load_offset P h1 w) in *.
  assert (Hin1 : files w1 !! path = Some (h1 ++ P)) by apply built_output.
  assert (Hlen1 : len (h1 ++ P) = len P + 64)
    by (rewrite len_app; unfold h1; rewrite header_bytes_len; lia).
  assert (HP1 : bytes_ok (h1 ++ P)) by (unfold bytes_ok; lia).
  pose proof (make_arm64_image_ok _ path _ w1 _ Hin1 Hnr Hnw HP1 Hlo)
    as Hrun2.
  rewrite Hlen1 in Hrun2.
  replace (len P + 64 + 64) with (len P + 128) in Hrun2 by lia.
  set (h2 := header_bytes load_offset (len P + 128)) in *.
  exists w1, (built path path load_offset (h1 ++ P) h2 w1), h1, h2.
  split; [exact Hrun1|]. split; [exact Hrun2|].
  assert (Hfit : ∀ n, 0 <= n - 64 <= PY_SSIZE_T_MAX → Struct.fits 8 n)
    by (unfold PY_SSIZE_T_MAX, Struct.fits; lia).
  split; [|split].
  - rewrite pack_header_spec, decide_True; [done|].
    split; [done | apply Hfit; unfold len in *; lia].
  - rewrite pack_header_spec, decide_True; [done|].
    split; [done | apply Hfit; unfold len in *; lia].
  - split; [exact Hin1 | apply built_output].
Qed.

Lemma in_place_build_twice_witness :
  ∃ w1 w2 h1 h2,
    make_arm64_image "kernel.bin" "kernel.bin" 0 world_100 = (Ok (), w1) ∧
    make_arm64_image "kernel.bin" "kernel.bin" 0 w1 = (Ok (), w2) ∧
    pack_header 0 (len (replicate 100 xcc) + 64) = Some h1 ∧
    pack_header 0 (len (replicate 100 xcc) + 128) = Some h2 ∧
    files w1 !! "kernel.bin" = Some (h1 ++ replicate 100 xcc) ∧
    files w2 !! "kernel.bin" = Some (h2 ++ h1 ++ replicate 100 xcc).
Proof.
  apply (in_place_build_twice "kernel.bin" 0 world_100 (replicate 100 xcc)).
  - vm_compute. reflexivity.
  - apply not_elem_of_empty.
  - apply not_elem_of_empty.
  - vm_compute. discriminate.
  - vm_compute. split; [discriminate | reflexivity].
Defined.

(** ** The exit status of the command *)

